(** * Date-keyed log extraction: a model of [extract_logs.py]

    The development embeds [LogExtractor._binary_search_date_position]
    and [LogExtractor.extract_logs] as Rocq functions and states the
    properties of the two-phase search-and-scan algorithm about them.

    Data, as the program has it:
    - a [bytes] object is a list of [Byte.byte];
    - a [str] object is a list of Unicode code points, each an [N];
    - a Python [int] is a [Z];
    - the input file is its byte content; the output file is the text
      written to it (the file is opened in text mode);
    - an exception is a value of [exn], carried by [result]. *)

From Stdlib Require Import ZArith NArith List Bool Lia.
From Stdlib Require Import Strings.String Strings.Ascii Strings.Byte.
From Stdlib Require Import DecimalString.
From Stdlib Require Import Sorting.Sorted.
From Equations Require Import Equations.
From Equations.Prop Require Import Logic.
Import ListNotations.

#[local] Open Scope Z_scope.

(** * The program *)

(** ** Text *)

Module Text.

Definition bytes := list byte.
Definition str := list N.

(** A literal of the model: the code points of an ASCII Rocq string. *)
Definition lit (s : string) : str :=
  map (fun b => Byte.to_N b) (list_byte_of_string s).

(** The bytes of an ASCII Rocq string, used to write files down. *)
Definition blit (s : string) : bytes := list_byte_of_string s.

Definition byte_eqb (a b : byte) : bool := N.eqb (Byte.to_N a) (Byte.to_N b).

Definition LF : N := 10%N.
Definition CR : N := 13%N.

(** [len(x)] as a Python int. *)
Definition len {A} (l : list A) : Z := Z.of_nat (List.length l).

(** [x[:n]] and [x[n:]] for an index [n >= 0]. *)
Definition take {A} (n : Z) (l : list A) : list A := firstn (Z.to_nat n) l.
Definition drop {A} (n : Z) (l : list A) : list A := skipn (Z.to_nat n) l.

(** [x[-n:]] for [n > 0]: the last [n] items, all of [x] when it is
    shorter. *)
Definition last_n {A} (n : Z) (l : list A) : list A :=
  drop (Z.max 0 (len l - n)) l.

(** *** [bytes.decode('utf-8', errors='ignore')]

    CPython's decoder, with the byte ranges it reports as errors
    skipped: an invalid start byte drops that byte; an invalid
    continuation byte drops the bytes of the sequence read so far and
    decoding resumes at the offending byte; a sequence cut by the end
    of the data drops everything that is left. *)

Definition is_continuation (b : N) : bool :=
  (N.leb 128 b && N.ltb b 192)%N.

Fixpoint utf8_decode_ignore (s : bytes) : str :=
  match s with
  | [] => []
  | b1 :: r1 =>
    let ch := Byte.to_N b1 in
    if (ch <? 128)%N then ch :: utf8_decode_ignore r1
    else if (ch <? 194)%N then utf8_decode_ignore r1
    else if (ch <? 224)%N then
      match r1 with
      | [] => []
      | b2 :: r2 =>
        let ch2 := Byte.to_N b2 in
        if is_continuation ch2
        then ((ch - 192) * 64 + (ch2 - 128))%N :: utf8_decode_ignore r2
        else utf8_decode_ignore r1
      end
    else if (ch <? 240)%N then
      match r1 with
      | [] => []
      | b2 :: r2 =>
        let ch2 := Byte.to_N b2 in
        if negb (is_continuation ch2)
           || (if (ch2 <? 160)%N then (ch =? 224)%N else (ch =? 237)%N)
        then utf8_decode_ignore r1
        else
          match r2 with
          | [] => []
          | b3 :: r3 =>
            let ch3 := Byte.to_N b3 in
            if is_continuation ch3
            then ((ch - 224) * 4096 + (ch2 - 128) * 64 + (ch3 - 128))%N
                 :: utf8_decode_ignore r3
            else utf8_decode_ignore r2
          end
      end
    else if (ch <? 245)%N then
      match r1 with
      | [] => []
      | b2 :: r2 =>
        let ch2 := Byte.to_N b2 in
        if negb (is_continuation ch2)
           || (if (ch2 <? 144)%N then (ch =? 240)%N else (ch =? 244)%N)
        then utf8_decode_ignore r1
        else
          match r2 with
          | [] => []
          | b3 :: r3 =>
            let ch3 := Byte.to_N b3 in
            if negb (is_continuation ch3) then utf8_decode_ignore r2
            else
              match r3 with
              | [] => []
              | b4 :: r4 =>
                let ch4 := Byte.to_N b4 in
                if is_continuation ch4
                then ((ch - 240) * 262144 + (ch2 - 128) * 4096
                      + (ch3 - 128) * 64 + (ch4 - 128))%N
                     :: utf8_decode_ignore r4
                else utf8_decode_ignore r3
              end
          end
      end
    else utf8_decode_ignore r1
  end.

(** *** [str.splitlines()]

    The line boundaries of [str]: LF, VT, FF, CR, FS, GS, RS, NEL, LS
    and PS, with CR LF counted as one.  The terminators are not kept,
    and a text that ends in a terminator has no empty last line. *)

Definition is_linebreak (c : N) : bool :=
  ((c =? 10) || (c =? 11) || (c =? 12) || (c =? 13) || (c =? 28)
   || (c =? 29) || (c =? 30) || (c =? 133) || (c =? 8232)
   || (c =? 8233))%N.

(** [cur] holds the current line, last character first. *)
Fixpoint splitlines_from (cur : str) (s : str) : list str :=
  match s with
  | [] => match cur with [] => [] | _ => [rev cur] end
  | c :: r =>
    if is_linebreak c then
      rev cur ::
        match r with
        | c' :: r' =>
          if ((c =? CR) && (c' =? LF))%N then splitlines_from [] r'
          else splitlines_from [] r
        | [] => splitlines_from [] r
        end
    else splitlines_from (c :: cur) r
  end.

Definition splitlines (s : str) : list str := splitlines_from [] s.

(** *** Comparisons of [str] *)

(** [a < b]: lexicographic on the code points. *)
Fixpoint str_ltb (a b : str) : bool :=
  match a, b with
  | [], [] => false
  | [], _ :: _ => true
  | _ :: _, [] => false
  | x :: a', y :: b' =>
    if (x <? y)%N then true
    else if (y <? x)%N then false
    else str_ltb a' b'
  end.

Fixpoint str_eqb (a b : str) : bool :=
  match a, b with
  | [], [] => true
  | x :: a', y :: b' => (x =? y)%N && str_eqb a' b'
  | _, _ => false
  end.

(** [s.startswith(p)]. *)
Fixpoint startswith (s p : str) : bool :=
  match p, s with
  | [], _ => true
  | _ :: _, [] => false
  | y :: p', x :: s' => (x =? y)%N && startswith s' p'
  end.

End Text.
Import Text.

(** ** Dates *)

Module Calendar.

(** The decimal digits.  Python's [\d] and [int] also accept the
    decimal digits of other scripts; the model keeps to ASCII, so a
    target date written in such digits counts as malformed here. *)
Definition digit_value (c : N) : option Z :=
  if ((48 <=? c) && (c <=? 57))%N then Some (Z.of_N c - 48) else None.

Definition is_digit (c : N) : bool :=
  match digit_value c with Some _ => true | None => false end.

Definition in_range (lo hi : N) (c : N) : bool := ((lo <=? c) && (c <=? hi))%N.

Definition is_char (a : N) (c : N) : bool := (c =? a)%N.

(** A sequence of character classes matched at the head of a text:
    the matched text and the rest. *)
Fixpoint match_classes (cls : list (N -> bool)) (s : str) : option (str * str) :=
  match cls with
  | [] => Some ([], s)
  | p :: cls' =>
    match s with
    | [] => None
    | c :: r =>
      if p c then
        match match_classes cls' r with
        | Some (m, rest) => Some (c :: m, rest)
        | None => None
        end
      else None
    end
  end.

(** A group of alternatives followed by a continuation [k]: the first
    alternative, in order, after which [k] succeeds. *)
Fixpoint match_group {A} (alts : list (list (N -> bool))) (s : str)
    (k : str -> str -> option A) : option A :=
  match alts with
  | [] => None
  | a :: alts' =>
    match match_classes a s with
    | Some (m, rest) =>
      match k m rest with
      | Some r => Some r
      | None => match_group alts' s k
      end
    | None => match_group alts' s k
    end
  end.

(** The directives of [_strptime]:
    [%Y] is [\d\d\d\d], [%m] is [1[0-2]|0[1-9]|[1-9]] and
    [%d] is [3[0-1]|[1-2]\d|0[1-9]|[1-9]| [1-9]]. *)
Definition re_Y : list (list (N -> bool)) :=
  [[is_digit; is_digit; is_digit; is_digit]].
Definition re_m : list (list (N -> bool)) :=
  [[is_char 49; in_range 48 50]; [is_char 48; in_range 49 57]; [in_range 49 57]].
Definition re_d : list (list (N -> bool)) :=
  [[is_char 51; in_range 48 49]; [in_range 49 50; is_digit];
   [is_char 48; in_range 49 57]; [in_range 49 57]; [is_char 32; in_range 49 57]].
Definition re_dash : list (list (N -> bool)) := [[is_char 45]].

(** [format_regex.match(data_string)] for the format [%Y-%m-%d]: the
    three groups and the text after the match. *)
Definition match_date (s : str) : option (str * str * str * str) :=
  match_group re_Y s (fun y r1 =>
  match_group re_dash r1 (fun _ r2 =>
  match_group re_m r2 (fun m r3 =>
  match_group re_dash r3 (fun _ r4 =>
  match_group re_d r4 (fun d r5 => Some (y, m, d, r5)))))).

(** The whitespace that [int] strips: the ASCII blanks, and the
    Unicode spaces beyond ASCII. *)
Definition is_space (c : N) : bool :=
  ((c =? 32) || ((9 <=? c) && (c <=? 13))
   || (c =? 133) || (c =? 160) || (c =? 5760)
   || ((8192 <=? c) && (c <=? 8202)) || (c =? 8232) || (c =? 8233)
   || (c =? 8239) || (c =? 8287) || (c =? 12288))%N.

Fixpoint lstrip (s : str) : str :=
  match s with
  | c :: r => if is_space c then lstrip r else s
  | [] => []
  end.

Definition strip (s : str) : str := rev (lstrip (rev (lstrip s))).

(** The value of a non-empty run of digits. *)
Fixpoint digits_value (acc : Z) (s : str) : option Z :=
  match s with
  | [] => Some acc
  | c :: r =>
    match digit_value c with
    | Some d => digits_value (acc * 10 + d) r
    | None => None
    end
  end.

(** [int(s)] where it returns, [None] where it raises ValueError:
    surrounding whitespace, an optional sign, decimal digits.  (The
    underscores [int] admits between digits need three characters and
    occur in no text matched by the date pattern.) *)
Definition py_int (s : str) : option Z :=
  match strip s with
  | [] => None
  | c :: r =>
    if (c =? 45)%N then
      match r with [] => None | _ => option_map Z.opp (digits_value 0 r) end
    else if (c =? 43)%N then
      match r with [] => None | _ => digits_value 0 r end
    else digits_value 0 (c :: r)
  end.

Definition is_leap (y : Z) : bool :=
  (y mod 4 =? 0) && (negb (y mod 100 =? 0) || (y mod 400 =? 0)).

Definition days_in_month (y m : Z) : Z :=
  if m =? 2 then (if is_leap y then 29 else 28)
  else if (m =? 4) || (m =? 6) || (m =? 9) || (m =? 11) then 30
  else 31.

(** [datetime.date(y, m, d)] accepts the triple. *)
Definition valid_ymd (y m d : Z) : bool :=
  (1 <=? y) && (y <=? 9999) && (1 <=? m) && (m <=? 12)
  && (1 <=? d) && (d <=? days_in_month y m).

(** [datetime.strptime(s, '%Y-%m-%d')]: the date where it returns,
    [None] where it raises ValueError (no match, unconverted data
    after the match, or a day the calendar does not have). *)
Definition strptime (s : str) : option (Z * Z * Z) :=
  match match_date s with
  | Some (y, m, d, rest) =>
    match rest with
    | [] =>
      match py_int y, py_int m, py_int d with
      | Some yv, Some mv, Some dv =>
        if valid_ymd yv mv dv then Some (yv, mv, dv) else None
      | _, _, _ => None
      end
    | _ :: _ => None
    end
  | None => None
  end.

(** The decimal digits of [n >= 0]. *)
Definition decimal (n : Z) : str :=
  lit (NilZero.string_of_uint (N.to_uint (Z.to_N n))).

(** [f"{n:02d}"]: sign-aware zero padding to width two. *)
Definition format_02d (n : Z) : str :=
  if n <? 0 then 45%N :: decimal (- n)
  else if n <? 10 then 48%N :: decimal n
  else decimal n.

End Calendar.
Import Calendar.

(** ** Exceptions *)

(** The exceptions the two methods can raise on their own (failures of
    the operating system to open, read or write a file are outside the
    model). *)
Inductive exn : Type :=
| InvalidDateFormat   (* ValueError("Invalid date format. Please use YYYY-MM-DD") *)
| MmapEmptyFile       (* ValueError("cannot mmap an empty file"), from mmap.mmap *)
| IntLiteral          (* ValueError, from int(target_date[-2:]) *)
| ReadLength.         (* ValueError, from f.read(n) with n < -1 *)

Inductive result (A : Type) : Type :=
| Ok (a : A)
| Raise (e : exn).
Arguments Ok {A} a.
Arguments Raise {A} e.

(** ** The memory-mapped file of the search *)

Module Mmap.

Record mmap := { mm_data : bytes; mm_pos : Z }.

(** [mmap.mmap(f.fileno(), 0, access=mmap.ACCESS_READ)]: the whole
    file is mapped; an empty file cannot be mapped. *)
Definition mm_open (f : bytes) : result mmap :=
  match f with
  | [] => Raise MmapEmptyFile
  | _ :: _ => Ok {| mm_data := f; mm_pos := 0 |}
  end.

(** [mm.seek(p)], for [0 <= p <= len(mm)] (the search seeks nowhere
    else). *)
Definition mm_seek (mm : mmap) (p : Z) : mmap :=
  {| mm_data := mm_data mm; mm_pos := p |}.

(** The bytes up to and including the first newline (all of [s] when
    it has none), and the bytes after them. *)
Fixpoint line_span (s : bytes) : bytes * bytes :=
  match s with
  | [] => ([], [])
  | b :: r =>
    if byte_eqb b x0a then ([b], r)
    else let (l, r') := line_span r in (b :: l, r')
  end.

(** [mm.readline()]: the line at the current position, and the map
    with its position after that line. *)
Definition mm_readline (mm : mmap) : bytes * mmap :=
  let line := fst (line_span (drop (mm_pos mm) (mm_data mm))) in
  (line, {| mm_data := mm_data mm; mm_pos := mm_pos mm + len line |}).

End Mmap.
Import Mmap.

(** ** [LogExtractor._binary_search_date_position] *)

(** The search window [left, right). *)
Record window := { left : Z; right : Z }.

(** Lines 34 to 36 (and 59 to 61): seek ten bytes before [mid], skip a
    line, read and decode the next one. *)
Definition probe (mm : mmap) (mid : Z) : str :=
  let mm := mm_seek mm (Z.max 0 (mid - 10)) in
  let (_, mm) := mm_readline mm in
  let (raw, _) := mm_readline mm in
  utf8_decode_ignore raw.

(** One iteration of either [while left < right] loop.  (Slicing and
    comparing strings raise nothing, so the [except] branch is never
    taken.) *)
Definition bs_step (mm : mmap) (key : str) (w : window) : window :=
  let mid := (left w + right w) / 2 in
  match probe mm mid with
  | [] => {| left := left w; right := mid |}
  | line =>
    let current_date := take 10 line in
    if str_ltb current_date key
    then {| left := mid + 1; right := right w |}
    else {| left := left w; right := mid |}
  end.

(** Each iteration narrows the window: [left <= mid < right], and
    either bound moves to [mid] or past it. *)
Ltac window_narrows :=
  match goal with
  | E : (left ?w <? right ?w) = true |- _ =>
    apply Z.ltb_lt in E;
    assert (left w <= (left w + right w) / 2 < right w)
      by (split; [apply Z.div_le_lower_bound | apply Z.div_lt_upper_bound]; lia);
    unfold bs_step;
    destruct (probe _ _); [simpl; lia|];
    destruct (str_ltb _ _); simpl; lia
  end.

(** The loop [while left < right]. *)
Equations? bs_loop (mm : mmap) (key : str) (w : window) : window
    by wf (Z.to_nat (right w - left w)) lt :=
  bs_loop mm key w with inspect (left w <? right w) := {
    | exist _ true Hlt => bs_loop mm key (bs_step mm key w)
    | exist _ false _ => w }.
Proof. window_narrows. Qed.

(** The windows of the loop, one after each iteration. *)
Equations? bs_trace (mm : mmap) (key : str) (w : window) : list window
    by wf (Z.to_nat (right w - left w)) lt :=
  bs_trace mm key w with inspect (left w <? right w) := {
    | exist _ true Hlt => bs_step mm key w :: bs_trace mm key (bs_step mm key w)
    | exist _ false _ => [] }.
Proof. window_narrows. Qed.

(** Line 54: the key of the second search. *)
Definition next_date (target_date : str) : result str :=
  match py_int (last_n 2 target_date) with
  | Some d => Ok (take 8 target_date ++ format_02d (d + 1))
  | None => Raise IntLiteral
  end.

(** The window the first search starts from, and the one it ends in. *)
Definition first_window (file_size : Z) : window :=
  {| left := 0; right := file_size |}.

Definition first_search (mm : mmap) (file_size : Z) (target_date : str) : window :=
  bs_loop mm target_date (first_window file_size).

(** Line 51. *)
Definition start_of (chunk_size : Z) (w : window) : Z :=
  Z.max 0 (left w - chunk_size).

(** Line 55. *)
Definition second_window (file_size start_pos : Z) : window :=
  {| left := start_pos; right := file_size |}.

(** Line 76. *)
Definition end_of (file_size chunk_size : Z) (w : window) : Z :=
  Z.min file_size (right w + chunk_size).

Definition _binary_search_date_position (file : bytes) (chunk_size : Z)
    (target_date : str) : result (Z * Z) :=
  let file_size := len file in
  match mm_open file with
  | Raise e => Raise e
  | Ok mm =>
    let w1 := first_search mm file_size target_date in
    let start_pos := start_of chunk_size w1 in
    match next_date target_date with
    | Raise e => Raise e
    | Ok next =>
      let w2 := bs_loop mm next (second_window file_size start_pos) in
      let end_pos := end_of file_size chunk_size w2 in
      Ok (start_pos, end_pos)
    end
  end.


(** ** [LogExtractor.extract_logs] *)

(** The two files of a run: the content of the log file at
    [self.filepath], and the content of the output file, [None] while
    it does not exist.  The two paths are taken to differ. *)
Record filesystem := { input : bytes; output : option str }.

(** [f.read(n)] at offset [tell] of the log file: up to [n] bytes,
    everything to the end of the file for [n = -1], ValueError for
    [n < -1]. *)
Definition file_read (file : bytes) (tell n : Z) : result bytes :=
  if n <? -1 then Raise ReadLength
  else if n =? -1 then Ok (drop tell file)
  else Ok (take n (drop tell file)).

(** What the scan has done to the output so far: the arguments of
    [out_f.write], in order, and [matches_found]. *)
Record sink := { written : list str; matches_found : Z }.

(** Lines 115 to 117, the body of [for line in lines]. *)
Definition emit (target_date : str) (snk : sink) (line : str) : sink :=
  if startswith line target_date
  then {| written := written snk ++ [line ++ [LF]];
          matches_found := matches_found snk + 1 |}
  else snk.

(** Lines 108 to 117, what one chunk adds to the output. *)
Definition scan_chunk (target_date : str) (start_pos : Z) (chunk : bytes)
    (snk : sink) : sink :=
  let lines := splitlines (utf8_decode_ignore chunk) in
  let lines :=
    if negb (start_pos =? 0) && (0 <? len lines) then tl lines else lines in
  fold_left (emit target_date) lines snk.

(** The loop [while f.tell() < end_pos] of lines 103 to 117, from the
    offset [tell]; the exception, if one ends the loop, comes with the
    output written before it. *)
Equations? scan_loop (file : bytes) (chunk_size : Z) (target_date : str)
    (start_pos end_pos : Z) (tell : Z) (snk : sink) : sink * option exn
    by wf (Z.to_nat (end_pos - tell)) lt :=
  scan_loop file chunk_size target_date start_pos end_pos tell snk
    with inspect (tell <? end_pos) := {
    | exist _ false _ => (snk, None)
    | exist _ true Hlt
      with inspect (file_read file tell (Z.min chunk_size (end_pos - tell))) := {
      | exist _ (Raise e) _ => (snk, Some e)
      | exist _ (Ok []) _ => (snk, None)
      | exist _ (Ok (b :: chunk)) _ =>
        scan_loop file chunk_size target_date start_pos end_pos
          (tell + len (b :: chunk))
          (scan_chunk target_date start_pos (b :: chunk) snk) } }.
Proof.
  apply Z.ltb_lt in Hlt. unfold len. cbn [List.length]. lia.
Qed.

(** What a run reports: the window it scanned, the lines it wrote and
    the count it logs. *)
Record report := {
  window_used : Z * Z;
  lines_written : list str;
  match_count : Z }.

Definition extract_logs (chunk_size : Z) (target_date : str)
    (fs : filesystem) : filesystem * result report :=
  match strptime target_date with
  | None => (fs, Raise InvalidDateFormat)
  | Some _ =>
    match _binary_search_date_position (input fs) chunk_size target_date with
    | Raise e => (fs, Raise e)
    | Ok (start_pos, end_pos) =>
      (* open(output_file, 'w') creates or truncates the output file *)
      let (snk, err) :=
        scan_loop (input fs) chunk_size target_date start_pos end_pos
          start_pos {| written := []; matches_found := 0 |} in
      let fs' := {| input := input fs;
                    output := Some (List.concat (written snk)) |} in
      match err with
      | Some e => (fs', Raise e)
      | None =>
        (fs', Ok {| window_used := (start_pos, end_pos);
                    lines_written := written snk;
                    match_count := matches_found snk |})
      end
    end
  end.

(** ** Fixtures and reference definitions *)

(** A log file given by its lines, each ended by a newline. *)
Definition file_of_lines (ls : list string) : bytes :=
  List.concat (map (fun l => blit l ++ [x0a]) ls).

(** The state in which a run starts: the log file, and whatever the
    output path holds. *)
Definition on_file (file : bytes) (prior : option str) : filesystem :=
  {| input := file; output := prior |}.

(** The map of a file, as [mm_open] returns it. *)
Definition mapped (file : bytes) : mmap := {| mm_data := file; mm_pos := 0 |}.

Definition empty_sink : sink := {| written := []; matches_found := 0 |}.

(** What the program is compared with: the lines of the whole file,
    their date keys, and the lines of one date. *)
Module Reference.

Definition file_lines (file : bytes) : list str :=
  splitlines (utf8_decode_ignore file).

Definition date_key (line : str) : str := take 10 line.

Definition has_date (target_date : str) (line : str) : bool :=
  str_eqb (date_key line) target_date.

Definition lines_of_date (target_date : str) (file : bytes) : list str :=
  filter (has_date target_date) (file_lines file).

(** The date keys never go down from one line to the next. *)
Fixpoint ascending (ls : list str) : bool :=
  match ls with
  | a :: (b :: _) as r => negb (str_ltb (date_key b) (date_key a)) && ascending r
  | _ => true
  end.

End Reference.
Import Reference.

(** A line as it is written to the output, newline included. *)
Definition line (s : string) : str := lit s ++ [LF].

(** The input of the concrete scenario. *)
Definition four_lines : bytes :=
  file_of_lines ["2024-01-01 a"; "2024-01-02 b"; "2024-01-02 c"; "2024-01-03 d"]%string.

(** A sorted file one line of which carries a later date in its text. *)
Definition three_lines : bytes :=
  file_of_lines ["2024-01-01 a"; "2024-01-01 b 2024-01-05 c"; "2024-01-09 d"]%string.

(** ** The properties stated *)

(** The invariant of the search window. *)
Definition window_ok (file_size : Z) (w : window) : Prop :=
  0 <= left w /\ left w <= right w /\ right w <= file_size.

(** [s] begins with [p]. *)
Definition begins_with (p s : str) : Prop := exists rest, s = p ++ rest.

(** An argument of [out_f.write]: a line that begins with the target
    date, and a newline. *)
Definition written_line (target_date : str) (w : str) : Prop :=
  exists line, w = line ++ [LF] /\ begins_with target_date line.

(** The output holds matching lines only, and the counter counts
    them. *)
Definition sink_sound (target_date : str) (snk : sink) : Prop :=
  Forall (written_line target_date) (written snk)
  /\ matches_found snk = len (written snk).

(** ** [main] *)



(** ** Further properties stated *)

(** A text without line boundary. *)
Definition no_linebreak (l : str) : Prop :=
  forallb (fun c => negb (is_linebreak c)) l = true.

(** What the scan has written is a list of lines, each without a line
    boundary inside, each followed by a newline. *)
Definition sink_of_lines (snk : sink) : Prop :=
  exists ls, written snk = map (fun l => l ++ [LF]) ls /\ Forall no_linebreak ls.


(** The consecutive pieces of [n] bytes of [s], the last one shorter
    when [n] does not divide the length of [s]; no piece at all for
    [n = 0]. *)
Equations? chunked (n : nat) (s : bytes) : list bytes by wf (List.length s) lt :=
  chunked 0 _ := [];
  chunked (S n) [] := [];
  chunked (S n) (b :: s) :=
    firstn (S n) (b :: s) :: chunked (S n) (skipn (S n) (b :: s)).
Proof. simpl. rewrite length_skipn. lia. Qed.

(** The bytes of the window [start_pos, end_pos) of a file. *)
Definition window_bytes (file : bytes) (start_pos end_pos : Z) : bytes :=
  take (end_pos - start_pos) (drop start_pos file).

(** *** Log files made of records *)

(** A record holds no newline. *)
Definition no_newline (l : bytes) : Prop :=
  forallb (fun b => negb (byte_eqb b x0a)) l = true.

(** The file of the records [ls]: each one followed by a newline. *)
Definition bytes_of_lines (ls : list bytes) : bytes :=
  List.concat (map (fun l => l ++ [x0a]) ls).

(** The date key the search reads off a record: the first ten
    characters of the decoded line. *)
Definition line_key (l : bytes) : str :=
  take 10 (utf8_decode_ignore (l ++ [x0a])).

(** [a] is not above [b] in the order of [str]. *)
Definition key_le (a b : str) : Prop := str_ltb b a = false.

(** No record has a key below the key of a record before it. *)
Definition sorted_by_key (ls : list bytes) : Prop :=
  StronglySorted (fun a b => key_le (line_key a) (line_key b)) ls.

(** The record after the one that holds the byte at offset [p] (the
    newline of a record counted with it). *)
Fixpoint next_line_after (ls : list bytes) (p : nat) : option bytes :=
  match ls with
  | [] => None
  | l :: r =>
    if (p <=? List.length l)%nat then hd_error r
    else next_line_after r (p - List.length l - 1)
  end.

(** The second of the two lines read from [s]. *)
Definition second_line (s : bytes) : bytes :=
  fst (line_span (snd (line_span s))).

(** The test of one iteration: the line probed at [mid] has a key
    below [key] (an empty line, at the end of the data, has not). *)
Definition probes_before (mm : mmap) (key : str) (mid : Z) : bool :=
  match probe mm mid with
  | [] => false
  | line => str_ltb (take 10 line) key
  end.

(** * Proofs *)

(** ** The text model on small inputs *)

Example decode_two_bytes : utf8_decode_ignore [xc3; xa9] = [233%N].
Proof. reflexivity. Qed.

Example decode_three_bytes : utf8_decode_ignore [xe2; x82; xac] = [8364%N].
Proof. reflexivity. Qed.

Example decode_four_bytes :
  utf8_decode_ignore [xf0; x9f; x98; x80] = [128512%N].
Proof. reflexivity. Qed.

Example decode_invalid_start : utf8_decode_ignore [xff; x41; x80; x42] = lit "AB".
Proof. reflexivity. Qed.

Example decode_invalid_continuation :
  utf8_decode_ignore [xe2; x82; x41] = lit "A".
Proof. reflexivity. Qed.

Example decode_truncated : utf8_decode_ignore [x41; xe2; x82] = lit "A".
Proof. reflexivity. Qed.

Example decode_surrogate : utf8_decode_ignore [xed; xa0; x80; x41] = lit "A".
Proof. reflexivity. Qed.

Example splitlines_terminated :
  splitlines (line "ab" ++ line "cd") = [lit "ab"; lit "cd"].
Proof. reflexivity. Qed.

Example splitlines_unterminated :
  splitlines (line "ab" ++ LF :: lit "cd") = [lit "ab"; []; lit "cd"].
Proof. reflexivity. Qed.

Example splitlines_crlf :
  splitlines (lit "ab" ++ CR :: LF :: lit "cd" ++ [CR]) = [lit "ab"; lit "cd"].
Proof. reflexivity. Qed.

Example readline_twice :
  let mm := mm_seek (mapped four_lines) 3 in
  fst (mm_readline mm) = blit "4-01-01 a" ++ [x0a]
  /\ fst (mm_readline (snd (mm_readline mm))) = blit "2024-01-02 b" ++ [x0a].
Proof. split; reflexivity. Qed.

(** [strptime] takes months and days of one digit, and a day written
    with a space, as the directives [%m] and [%d] do. *)
Example strptime_accepts :
  strptime (lit "2024-02-29") = Some (2024, 2, 29)
  /\ strptime (lit "2024-1-5") = Some (2024, 1, 5)
  /\ strptime (lit "2024-01- 5") = Some (2024, 1, 5).
Proof. repeat split. Qed.

Example strptime_rejects :
  strptime (lit "2023-02-29") = None
  /\ strptime (lit "2024-13-01") = None
  /\ strptime (lit "2024-01-311") = None
  /\ strptime (lit "0000-01-01") = None
  /\ strptime (lit "24-01-01") = None
  /\ strptime (lit "2024/01/01") = None.
Proof. repeat split. Qed.

Example py_int_values :
  py_int (lit "31") = Some 31 /\ py_int (lit "-5") = Some (-5)
  /\ py_int (lit " 5") = Some 5 /\ py_int (lit "- 5") = None
  /\ py_int (lit "a1") = None /\ py_int [] = None.
Proof. repeat split. Qed.

Example format_02d_values :
  format_02d 5 = lit "05" /\ format_02d 32 = lit "32"
  /\ format_02d 100 = lit "100" /\ format_02d (-4) = lit "-4".
Proof. repeat split. Qed.

(** ** The loops, unfolded *)

(** The guard of a loop, as the proposition it decides. *)
Ltac loop_guard :=
  match goal with
  | E : (?a <? ?b) = true |- _ => pose proof (proj1 (Z.ltb_lt a b) E)
  | E : (?a <? ?b) = false |- _ => pose proof (proj1 (Z.ltb_ge a b) E)
  end.

Lemma bs_loop_eq mm key w :
  bs_loop mm key w
  = if left w <? right w then bs_loop mm key (bs_step mm key w) else w.
Proof.
  funelim (bs_loop mm key w);
    match goal with E : (_ <? _) = _ |- _ => rewrite E end; reflexivity.
Qed.

Lemma bs_trace_eq mm key w :
  bs_trace mm key w
  = if left w <? right w
    then bs_step mm key w :: bs_trace mm key (bs_step mm key w)
    else [].
Proof.
  funelim (bs_trace mm key w);
    match goal with E : (_ <? _) = _ |- _ => rewrite E end; reflexivity.
Qed.

Lemma scan_loop_eq file chunk_size target_date start_pos end_pos tell snk :
  scan_loop file chunk_size target_date start_pos end_pos tell snk
  = if tell <? end_pos then
      match file_read file tell (Z.min chunk_size (end_pos - tell)) with
      | Raise e => (snk, Some e)
      | Ok [] => (snk, None)
      | Ok (b :: chunk) =>
        scan_loop file chunk_size target_date start_pos end_pos
          (tell + len (b :: chunk))
          (scan_chunk target_date start_pos (b :: chunk) snk)
      end
    else (snk, None).
Proof.
  funelim (scan_loop file chunk_size target_date start_pos end_pos tell snk);
    repeat match goal with
           | E : (_ <? _) = _ |- _ => rewrite E
           | E : file_read _ _ _ = _ |- _ => rewrite E
           end; reflexivity.
Qed.

Lemma last_cons {A} (l : list A) : forall a d, last (a :: l) d = last l a.
Proof.
  induction l as [|b l IH]; intros a d; [reflexivity|].
  change (last (a :: b :: l) d) with (last (b :: l) d).
  now rewrite (IH b d), (IH b a).
Qed.

Lemma last_Forall {A} (P : A -> Prop) (l : list A) :
  forall d, P d -> Forall P l -> P (last l d).
Proof.
  induction l as [|a l IH]; intros d Hd Hall; [assumption|].
  inversion Hall; subst. rewrite last_cons. now apply IH.
Qed.

(** The loop ends in the last window of its trace. *)
Lemma bs_loop_last_of_trace mm key w :
  bs_loop mm key w = last (bs_trace mm key w) w.
Proof.
  funelim (bs_trace mm key w).
  - rewrite bs_loop_eq.
    match goal with E : (_ <? _) = true |- _ => rewrite E end.
    match goal with IH : bs_loop _ _ _ = last _ _ |- _ => rewrite IH end.
    now rewrite last_cons.
  - rewrite bs_loop_eq.
    match goal with E : (_ <? _) = false |- _ => rewrite E end.
    reflexivity.
Qed.

(** ** The search window *)

Lemma bs_step_cases mm key w :
  bs_step mm key w = {| left := left w; right := (left w + right w) / 2 |}
  \/ bs_step mm key w = {| left := (left w + right w) / 2 + 1; right := right w |}.
Proof.
  unfold bs_step.
  destruct (probe mm _) as [|c l]; [now left|].
  destruct (str_ltb _ key); [now right | now left].
Qed.

Lemma bs_step_decreases mm key w :
  left w < right w ->
  (Z.to_nat (right (bs_step mm key w) - left (bs_step mm key w))
   < Z.to_nat (right w - left w))%nat.
Proof.
  intros Hlt.
  assert (Hmid : left w <= (left w + right w) / 2 < right w).
  { split; [apply Z.div_le_lower_bound | apply Z.div_lt_upper_bound]; lia. }
  destruct (bs_step_cases mm key w) as [E | E]; rewrite E; simpl; lia.
Qed.

Lemma bs_step_window_ok mm key size w :
  left w < right w -> window_ok size w -> window_ok size (bs_step mm key w).
Proof.
  intros Hlt (H0 & _ & Hs).
  assert (Hmid : left w <= (left w + right w) / 2 < right w).
  { split; [apply Z.div_le_lower_bound | apply Z.div_lt_upper_bound]; lia. }
  unfold window_ok.
  destruct (bs_step_cases mm key w) as [E | E]; rewrite E; simpl; lia.
Qed.

Lemma bs_trace_window_ok mm key size w :
  window_ok size w -> Forall (window_ok size) (bs_trace mm key w).
Proof.
  funelim (bs_trace mm key w); intros Hok.
  - loop_guard.
    constructor.
    + now apply bs_step_window_ok.
    + match goal with IH : forall _, _ -> Forall _ _ |- _ => apply IH end.
      now apply bs_step_window_ok.
  - constructor.
Qed.

Lemma bs_loop_window_ok mm key size w :
  window_ok size w -> window_ok size (bs_loop mm key w).
Proof.
  intros Hok. rewrite bs_loop_last_of_trace.
  apply last_Forall; [assumption|]. now apply bs_trace_window_ok.
Qed.

(** The loop ends with its guard false, *)
Lemma bs_loop_exits mm key w :
  right (bs_loop mm key w) <= left (bs_loop mm key w).
Proof.
  funelim (bs_loop mm key w).
  - assumption.
  - loop_guard. assumption.
Qed.

(** and so in an empty window. *)
Lemma bs_loop_closed mm key size w :
  window_ok size w -> left (bs_loop mm key w) = right (bs_loop mm key w).
Proof.
  intros Hok.
  pose proof (bs_loop_exits mm key w).
  pose proof (bs_loop_window_ok mm key size w Hok) as (_ & Hle & _). lia.
Qed.

Lemma first_window_ok (file : bytes) : window_ok (len file) (first_window (len file)).
Proof. unfold window_ok, first_window, len; simpl; lia. Qed.

Lemma second_window_ok (file : bytes) chunk_size mm target_date :
  0 <= chunk_size ->
  window_ok (len file)
    (second_window (len file)
       (start_of chunk_size (first_search mm (len file) target_date))).
Proof.
  intros Hc.
  pose proof (bs_loop_window_ok mm target_date _ _ (first_window_ok file))
    as (H0 & Hle & Hs).
  fold (first_search mm (len file) target_date) in H0, Hle, Hs.
  unfold window_ok, second_window, start_of; simpl. lia.
Qed.

(** ** The window returned *)

Lemma mm_open_nonempty (file : bytes) :
  file <> [] -> mm_open file = Ok (mapped file).
Proof. destruct file; [congruence | reflexivity]. Qed.

(** On a file that is not empty the window is the one of lines 51 and
    76: the result of the first search less the margin, and the result
    of the second search plus the margin, clamped to the file. *)
Lemma window_of_nonempty_file (file : bytes) chunk_size target_date next :
  file <> [] ->
  next_date target_date = Ok next ->
  let lower_target := left (first_search (mapped file) (len file) target_date) in
  let start_pos := Z.max 0 (lower_target - chunk_size) in
  let lower_next :=
    right (bs_loop (mapped file) next (second_window (len file) start_pos)) in
  _binary_search_date_position file chunk_size target_date
  = Ok (start_pos, Z.min (len file) (lower_next + chunk_size)).
Proof.
  intros Hne Hnext. unfold _binary_search_date_position.
  rewrite (mm_open_nonempty _ Hne), Hnext. reflexivity.
Qed.

(** A margin that spans the file makes the window the whole file. *)
Lemma window_of_spanning_margin (file : bytes) chunk_size target_date next :
  file <> [] ->
  len file <= chunk_size ->
  next_date target_date = Ok next ->
  _binary_search_date_position file chunk_size target_date = Ok (0, len file).
Proof.
  intros Hne Hc Hnext.
  rewrite (window_of_nonempty_file file chunk_size target_date next Hne Hnext).
  cbv zeta.
  assert (H0c : 0 <= chunk_size) by (unfold len in Hc; lia).
  pose proof (bs_loop_window_ok (mapped file) target_date _ _
                (first_window_ok file)) as (H0 & Hle & Hs).
  fold (first_search (mapped file) (len file) target_date) in H0, Hle, Hs.
  pose proof (second_window_ok file chunk_size (mapped file) target_date H0c)
    as Hw2.
  pose proof (bs_loop_window_ok (mapped file) next _ _ Hw2) as (H0' & Hle' & Hs').
  unfold start_of in *.
  do 2 f_equal; lia.
Qed.

(** ** The scan *)

Lemma file_read_whole (file : bytes) chunk_size :
  len file <= chunk_size ->
  file_read file 0 (Z.min chunk_size (len file - 0)) = Ok file.
Proof.
  intros Hc. unfold file_read.
  replace (Z.min chunk_size (len file - 0)) with (len file) by lia.
  assert (0 <= len file) by (unfold len; lia).
  destruct (len file <? -1) eqn:E1; [apply Z.ltb_lt in E1; lia|].
  destruct (len file =? -1) eqn:E2; [apply Z.eqb_eq in E2; lia|].
  unfold take, drop, len. rewrite Nat2Z.id. simpl skipn.
  now rewrite firstn_all.
Qed.

(** A margin that spans the file reads the file as a single chunk. *)
Lemma scan_of_spanning_margin (file : bytes) chunk_size target_date snk :
  file <> [] ->
  len file <= chunk_size ->
  scan_loop file chunk_size target_date 0 (len file) 0 snk
  = (scan_chunk target_date 0 file snk, None).
Proof.
  intros Hne Hc.
  assert (Hpos : 0 < len file).
  { destruct file; [congruence|]. unfold len; simpl List.length; lia. }
  rewrite scan_loop_eq.
  apply Z.ltb_lt in Hpos. rewrite Hpos.
  rewrite (file_read_whole _ _ Hc).
  destruct file as [|b chunk]; [congruence|].
  rewrite scan_loop_eq.
  replace (0 + len (b :: chunk) <? len (b :: chunk)) with false
    by (symmetry; apply Z.ltb_ge; lia).
  reflexivity.
Qed.

(** *** What is written *)

Lemma startswith_begins_with s : forall p,
  startswith s p = true <-> begins_with p s.
Proof.
  induction s as [|x s IH]; intros [|y p]; simpl.
  - split; [exists []; reflexivity | reflexivity].
  - split; [discriminate | intros [r Hr]; discriminate].
  - split; [exists (x :: s); reflexivity | reflexivity].
  - rewrite andb_true_iff, N.eqb_eq, IH. split.
    + intros [-> [r ->]]. exists r. reflexivity.
    + intros [r Hr]. injection Hr as -> ->. split; [reflexivity | now exists r].
Qed.

Lemma empty_sink_sound target_date : sink_sound target_date empty_sink.
Proof. split; [constructor | reflexivity]. Qed.

Lemma emit_sound target_date snk line :
  sink_sound target_date snk -> sink_sound target_date (emit target_date snk line).
Proof.
  intros [Hall Hcount]. unfold emit.
  destruct (startswith line target_date) eqn:E; [|now split].
  split; simpl.
  - apply Forall_app. split; [assumption|].
    constructor; [|constructor].
    exists line. split; [reflexivity|]. now apply startswith_begins_with.
  - unfold len in *. rewrite length_app. simpl List.length. lia.
Qed.

Lemma fold_emit_sound target_date lines : forall snk,
  sink_sound target_date snk ->
  sink_sound target_date (fold_left (emit target_date) lines snk).
Proof.
  induction lines as [|l lines IH]; intros snk Hs; simpl; [assumption|].
  apply IH. now apply emit_sound.
Qed.

Lemma scan_chunk_sound target_date start_pos chunk snk :
  sink_sound target_date snk ->
  sink_sound target_date (scan_chunk target_date start_pos chunk snk).
Proof. intros Hs. unfold scan_chunk. now apply fold_emit_sound. Qed.

Lemma scan_loop_sound file chunk_size target_date start_pos end_pos tell snk :
  sink_sound target_date snk ->
  sink_sound target_date
    (fst (scan_loop file chunk_size target_date start_pos end_pos tell snk)).
Proof.
  funelim (scan_loop file chunk_size target_date start_pos end_pos tell snk);
    intros Hs; try assumption.
  match goal with IH : _ -> sink_sound _ _ |- _ => apply IH end.
  now apply scan_chunk_sound.
Qed.

(** ** Validated dates *)

Lemma match_classes_inv cls : forall s m rest,
  match_classes cls s = Some (m, rest) ->
  s = m ++ rest /\ Forall2 (fun p c => p c = true) cls m.
Proof.
  induction cls as [|p cls IH]; intros s m rest; simpl.
  - intros H. injection H as <- <-. split; [reflexivity | constructor].
  - destruct s as [|c r]; [discriminate|].
    destruct (p c) eqn:Hp; [|discriminate].
    destruct (match_classes cls r) as [[m' rest']|] eqn:Hm; [|discriminate].
    intros H. injection H as <- <-.
    destruct (IH _ _ _ Hm) as [-> Hall].
    split; [reflexivity | now constructor].
Qed.

Lemma match_group_inv {A} alts s (k : str -> str -> option A) r :
  match_group alts s k = Some r ->
  exists a m rest,
    In a alts /\ match_classes a s = Some (m, rest) /\ k m rest = Some r.
Proof.
  induction alts as [|a alts IH]; simpl; [discriminate|].
  destruct (match_classes a s) as [[m rest]|] eqn:Hm.
  - destruct (k m rest) as [r'|] eqn:Hk.
    + intros H. injection H as <-. exists a, m, rest. auto.
    + intros H. destruct (IH H) as (a' & m' & rest' & Hin & H1 & H2).
      exists a', m', rest'. auto.
  - intros H. destruct (IH H) as (a' & m' & rest' & Hin & H1 & H2).
    exists a', m', rest'. auto.
Qed.

Lemma skipn_length_app {A} (pre l : list A) :
  skipn (List.length pre) (pre ++ l) = l.
Proof. induction pre; simpl; auto. Qed.

Lemma last_n_2_app (pre : str) a b : last_n 2 (pre ++ [a; b]) = [a; b].
Proof.
  unfold last_n, drop, len. rewrite length_app. simpl List.length.
  replace (Z.to_nat (Z.max 0 (Z.of_nat (List.length pre + 2) - 2)))
    with (List.length pre) by lia.
  apply skipn_length_app.
Qed.

(** A text the date pattern matches to its end is some text, a dash,
    and the day group. *)
Lemma match_date_shape s y m d :
  match_date s = Some (y, m, d, []) ->
  exists pre a, s = pre ++ 45%N :: d /\ In a re_d /\ Forall2 (fun p c => p c = true) a d.
Proof.
  unfold match_date. intros H.
  apply match_group_inv in H as (a1 & y' & r1 & _ & Hy & H).
  apply match_group_inv in H as (a2 & d1 & r2 & _ & Hd1 & H).
  apply match_group_inv in H as (a3 & m' & r3 & _ & Hm & H).
  apply match_group_inv in H as (a4 & d2 & r4 & Hin4 & Hd2 & H).
  apply match_group_inv in H as (a5 & d' & r5 & Hin5 & Hd & H).
  injection H as -> -> -> ->.
  apply match_classes_inv in Hy as [-> _].
  apply match_classes_inv in Hd1 as [-> _].
  apply match_classes_inv in Hm as [-> _].
  apply match_classes_inv in Hd as [-> Hday].
  destruct Hin4 as [<- | []].
  apply match_classes_inv in Hd2 as [-> Hdash].
  inversion Hdash as [|p c ps cs Hc Hrest]; subst.
  inversion Hrest; subst.
  unfold is_char in Hc. apply N.eqb_eq in Hc. subst c.
  exists (y ++ d1 ++ m), a5.
  rewrite app_nil_r. repeat rewrite <- app_assoc. auto.
Qed.

Lemma py_int_dash_digit c :
  in_range 49 57 c = true -> exists v, py_int [45%N; c] = Some v.
Proof.
  unfold in_range. rewrite andb_true_iff, !N.leb_le. intros [Hlo Hhi].
  assert (Hc : (c = 49 \/ c = 50 \/ c = 51 \/ c = 52 \/ c = 53 \/ c = 54
                \/ c = 55 \/ c = 56 \/ c = 57)%N) by lia.
  repeat (destruct Hc as [-> | Hc]; [eexists; reflexivity|]).
  subst c. eexists; reflexivity.
Qed.

(** After validation, line 54 raises nothing. *)
Lemma validated_date_has_next target_date ymd :
  strptime target_date = Some ymd -> exists next, next_date target_date = Ok next.
Proof.
  unfold strptime.
  destruct (match_date target_date) as [[[[y m] d] rest]|] eqn:Hm; [|discriminate].
  destruct rest; [|discriminate].
  destruct (py_int y); [|discriminate].
  destruct (py_int m); [|discriminate].
  destruct (py_int d) as [dv|] eqn:Hd; [|discriminate].
  intros _.
  apply match_date_shape in Hm as (pre & a & -> & Hin & Hday).
  assert (Hint : exists v, py_int (last_n 2 (pre ++ 45%N :: d)) = Some v).
  { simpl in Hin.
    destruct Hin as [<- | [<- | [<- | [<- | [<- | []]]]]];
      inversion Hday as [|p1 c1 ps1 cs1 Hc1 Hrest1]; subst;
      inversion Hrest1 as [|p2 c2 ps2 cs2 Hc2 Hrest2]; subst;
      try (inversion Hrest2; subst).
    1,2,3,5:
      replace (pre ++ 45%N :: [c1; c2]) with ((pre ++ [45%N]) ++ [c1; c2])
        by (rewrite <- app_assoc; reflexivity);
      rewrite last_n_2_app; eauto.
    rewrite last_n_2_app. now apply py_int_dash_digit. }
  destruct Hint as [v Hv]. unfold next_date. rewrite Hv. eauto.
Qed.

(** ** A margin that spans the file *)

Lemma fold_emit_filter target_date lines : forall snk,
  fold_left (emit target_date) lines snk
  = {| written :=
         written snk
         ++ map (fun l => l ++ [LF])
              (filter (fun l => startswith l target_date) lines);
       matches_found :=
         matches_found snk
         + len (filter (fun l => startswith l target_date) lines) |}.
Proof.
  induction lines as [|l lines IH]; intros snk; simpl.
  - destruct snk; simpl. now rewrite app_nil_r, Z.add_0_r.
  - rewrite IH. unfold emit.
    destruct (startswith l target_date); simpl; [|reflexivity].
    rewrite <- app_assoc. simpl. f_equal.
    unfold len. simpl List.length. lia.
Qed.


(** ** The run as a whole *)



(** C10. Whatever the file, sorted or not, and whatever the margin,
    every line a run writes is a line that begins with the target
    date followed by a newline, the count reported is the number of
    lines written, and the output file holds exactly those lines. *)
Theorem written_lines_begin_with_target chunk_size target_date fs fs' rep :
  extract_logs chunk_size target_date fs = (fs', Ok rep) ->
  Forall (written_line target_date) (lines_written rep)
  /\ match_count rep = len (lines_written rep)
  /\ output fs' = Some (List.concat (lines_written rep)).
Proof.
  unfold extract_logs.
  destruct (strptime target_date); [|discriminate].
  destruct (_binary_search_date_position _ _ _) as [[start_pos end_pos]|];
    [|discriminate].
  pose proof (scan_loop_sound (input fs) chunk_size target_date start_pos
                end_pos start_pos empty_sink (empty_sink_sound target_date))
    as [Hall Hcount].
  fold empty_sink.
  destruct (scan_loop _ _ _ _ _ _ _) as [snk [e|]]; [discriminate|].
  intros H. injection H as <- <-. simpl in *. now repeat split.
Qed.

Lemma written_lines_begin_with_target_witness :
  Forall (written_line (lit "2024-01-02"))
    [line "2024-01-02 b"; line "2024-01-02 c"]
  /\ 2 = len [line "2024-01-02 b"; line "2024-01-02 c"]
  /\ Some (line "2024-01-02 b" ++ line "2024-01-02 c")
     = Some (List.concat [line "2024-01-02 b"; line "2024-01-02 c"]).
Proof.
  exact (written_lines_begin_with_target 10485760 (lit "2024-01-02")
           (on_file four_lines None)
           (on_file four_lines
              (Some (line "2024-01-02 b" ++ line "2024-01-02 c")))
           {| window_used := (0, 52);
              lines_written := [line "2024-01-02 b"; line "2024-01-02 c"];
              match_count := 2 |}
           eq_refl).
Defined.

(** A run that ends in an exception leaves the output file as it was,
    or holding matching lines only. *)
Lemma failed_run_output chunk_size target_date fs fs' e :
  extract_logs chunk_size target_date fs = (fs', Raise e) ->
  output fs' = output fs
  \/ exists ws,
       Forall (written_line target_date) ws
       /\ output fs' = Some (List.concat ws).
Proof.
  unfold extract_logs.
  destruct (strptime target_date).
  2:{ intros H. injection H as <- _. now left. }
  destruct (_binary_search_date_position _ _ _) as [[start_pos end_pos]|].
  2:{ intros H. injection H as <- _. now left. }
  pose proof (scan_loop_sound (input fs) chunk_size target_date start_pos
                end_pos start_pos empty_sink (empty_sink_sound target_date))
    as [Hall _].
  fold empty_sink.
  destruct (scan_loop _ _ _ _ _ _ _) as [snk [e'|]]; [|discriminate].
  intros H. injection H as <- _. right. exists (written snk). now split.
Qed.

(** C9. A run is determined by the log file, the target date and the
    margin: two runs on the same log file report the same thing and,
    where they get as far as opening the output, leave the same text
    in it, whatever it held before; and a second run after the first
    changes nothing. *)
Theorem extract_logs_deterministic chunk_size target_date fs1 fs2 :
  input fs1 = input fs2 ->
  snd (extract_logs chunk_size target_date fs1)
  = snd (extract_logs chunk_size target_date fs2)
  /\ (forall rep,
        snd (extract_logs chunk_size target_date fs1) = Ok rep ->
        output (fst (extract_logs chunk_size target_date fs1))
        = output (fst (extract_logs chunk_size target_date fs2)))
  /\ extract_logs chunk_size target_date
       (fst (extract_logs chunk_size target_date fs1))
     = extract_logs chunk_size target_date fs1.
Proof.
  intros Hin. unfold extract_logs. rewrite <- Hin.
  destruct (strptime target_date) eqn:Hd; simpl.
  2:{ repeat split. discriminate. }
  destruct (_binary_search_date_position _ _ _) as [[start_pos end_pos]|e]
    eqn:Hw; simpl.
  2:{ rewrite ?Hw. repeat split. discriminate. }
  destruct (scan_loop _ _ _ _ _ _ _) as [snk [e|]] eqn:Hs; simpl;
    rewrite ?Hw, ?Hs; repeat split.
Qed.

Lemma extract_logs_deterministic_witness :
  snd (extract_logs 20 (lit "2024-01-02") (on_file four_lines None))
  = snd (extract_logs 20 (lit "2024-01-02")
           (on_file four_lines (Some (lit "stale"))))
  /\ output (fst (extract_logs 20 (lit "2024-01-02") (on_file four_lines None)))
     = output (fst (extract_logs 20 (lit "2024-01-02")
                      (on_file four_lines (Some (lit "stale"))))).
Proof.
  destruct (extract_logs_deterministic 20 (lit "2024-01-02")
              (on_file four_lines None)
              (on_file four_lines (Some (lit "stale"))) eq_refl)
    as (Hrep & Hout & _).
  split; [exact Hrep|].
  apply (Hout {| window_used := (0, 52);
                 lines_written := [line "2024-01-02 c"];
                 match_count := 1 |}).
  reflexivity.
Defined.

(** C8. With a margin that is a byte count (not negative), every
    window of both searches, the one each loop starts from and the
    one after each of its iterations, satisfies
    [0 <= left <= right <= fileSize].  The second search is taken
    with any key, the day after the target among them. *)
Theorem search_window_invariant (file : bytes) chunk_size target_date key2 :
  0 <= chunk_size ->
  let mm := mapped file in
  let w1 := first_window (len file) in
  let w2 := second_window (len file)
              (start_of chunk_size (first_search mm (len file) target_date)) in
  Forall (window_ok (len file)) (w1 :: bs_trace mm target_date w1)
  /\ Forall (window_ok (len file)) (w2 :: bs_trace mm key2 w2).
Proof.
  intros Hc mm w1 w2.
  assert (Hw1 : window_ok (len file) w1) by apply first_window_ok.
  assert (Hw2 : window_ok (len file) w2) by now apply second_window_ok.
  split; constructor; try assumption; now apply bs_trace_window_ok.
Qed.

(** A negative margin, which the command line does not refuse, puts
    the start of the second search after the end of the file. *)
Example second_window_of_negative_margin :
  second_window (len four_lines)
    (start_of (-100)
       (first_search (mapped four_lines) (len four_lines) (lit "2024-01-02")))
  = {| left := 100; right := 52 |}.
Proof. reflexivity. Qed.

Lemma search_window_invariant_witness :
  Forall (window_ok 52)
    [ {| left := 0; right := 52 |}; {| left := 27; right := 52 |};
      {| left := 27; right := 39 |}; {| left := 34; right := 39 |};
      {| left := 34; right := 36 |}; {| left := 36; right := 36 |} ]
  /\ Forall (window_ok 52)
       [ {| left := 26; right := 52 |}; {| left := 40; right := 52 |};
         {| left := 47; right := 52 |}; {| left := 47; right := 49 |};
         {| left := 49; right := 49 |} ].
Proof.
  apply (search_window_invariant four_lines 10 (lit "2024-01-03")
           (lit "2024-01-04")).
  lia.
Defined.

(** ** The concrete scenario *)

(** C6. On the four lines [2024-01-01 a], [2024-01-02 b],
    [2024-01-02 c], [2024-01-03 d], with target 2024-01-02 and any
    margin that spans the 52 bytes of the file, the run scans the
    window (0, 52), writes [2024-01-02 b] then [2024-01-02 c] and
    nothing else, and counts 2 matches. *)
Theorem four_lines_scenario chunk_size prior :
  len four_lines <= chunk_size ->
  extract_logs chunk_size (lit "2024-01-02") (on_file four_lines prior)
  = (on_file four_lines (Some (line "2024-01-02 b" ++ line "2024-01-02 c")),
     Ok {| window_used := (0, 52);
           lines_written := [line "2024-01-02 b"; line "2024-01-02 c"];
           match_count := 2 |}).
Proof.
  intros Hc.
  assert (Hne : four_lines <> []) by discriminate.
  unfold extract_logs, on_file. cbn [input].
  change (strptime (lit "2024-01-02")) with (Some (2024, 1, 2)). cbv iota.
  rewrite (window_of_spanning_margin four_lines chunk_size (lit "2024-01-02")
             (lit "2024-01-03") Hne Hc eq_refl).
  rewrite (scan_of_spanning_margin four_lines chunk_size (lit "2024-01-02")
             _ Hne Hc).
  reflexivity.
Qed.

Lemma four_lines_scenario_witness :
  len four_lines <= 10485760
  /\ extract_logs 10485760 (lit "2024-01-02") (on_file four_lines None)
     = (on_file four_lines (Some (line "2024-01-02 b" ++ line "2024-01-02 c")),
        Ok {| window_used := (0, 52);
              lines_written := [line "2024-01-02 b"; line "2024-01-02 c"];
              match_count := 2 |}).
Proof.
  assert (H : len four_lines <= 10485760) by (vm_compute; discriminate).
  split; [exact H|].
  exact (four_lines_scenario 10485760 None H).
Defined.

(** ** Where the program departs from its description *)

(** C3. The key of the second search is the target date with its last
    two characters replaced by their number plus one: for the target
    2024-01-31 it is the string 2024-01-32, which names no day of the
    calendar, and not 2024-02-01. *)
Theorem next_date_of_month_end :
  strptime (lit "2024-01-31") = Some (2024, 1, 31)
  /\ next_date (lit "2024-01-31") = Ok (lit "2024-01-32")
  /\ strptime (lit "2024-01-32") = None.
Proof. repeat split. Qed.

(** C4. An empty log file cannot be memory-mapped: the search raises
    ValueError before it computes any window, for every margin and
    target date, and the run of a valid date ends in that error with
    the output file untouched, rather than in the window (0, 0). *)
Theorem empty_file_has_no_window chunk_size target_date prior :
  _binary_search_date_position [] chunk_size target_date = Raise MmapEmptyFile
  /\ extract_logs chunk_size (lit "2024-01-02") (on_file [] prior)
     = (on_file [] prior, Raise MmapEmptyFile).
Proof. split; reflexivity. Qed.

(** C1. The four lines of the scenario are in ascending date order and
    two of them carry the date 2024-01-02; with a margin of 20 bytes
    the run scans the whole file, the window (0, 52), and yet writes
    only the second of the two: the first straddles the boundary
    between the chunks at byte 20 and is seen as the two fragments
    [2024-01] and [-02 b]. *)
Theorem sorted_file_matching_line_lost :
  ascending (file_lines four_lines) = true
  /\ lines_of_date (lit "2024-01-02") four_lines
     = [lit "2024-01-02 b"; lit "2024-01-02 c"]
  /\ extract_logs 20 (lit "2024-01-02") (on_file four_lines None)
     = (on_file four_lines (Some (line "2024-01-02 c")),
        Ok {| window_used := (0, 52);
              lines_written := [line "2024-01-02 c"];
              match_count := 1 |}).
Proof. repeat split. Qed.

(** C2. The scan of one window depends on the read granularity: the
    window (0, 41) of the four-line file read as one chunk gives both
    lines of 2024-01-02, and read five bytes at a time (less than the
    13 bytes of a line) gives none, since no chunk holds a whole date
    key and nothing is carried from one chunk to the next.  A run with
    a margin of 5 bytes scans exactly that window. *)
Theorem small_granularity_loses_lines :
  scan_loop four_lines 41 (lit "2024-01-02") 0 41 0 empty_sink
  = ({| written := [line "2024-01-02 b"; line "2024-01-02 c"];
        matches_found := 2 |}, None)
  /\ scan_loop four_lines 5 (lit "2024-01-02") 0 41 0 empty_sink
     = (empty_sink, None)
  /\ extract_logs 5 (lit "2024-01-02") (on_file four_lines None)
     = (on_file four_lines (Some []),
        Ok {| window_used := (0, 41); lines_written := []; match_count := 0 |}).
Proof. repeat split. Qed.

(** C5. No line of the three-line file carries the date 2024-01-05,
    its lines are in ascending date order, and a run for 2024-01-05
    with a margin of 26 bytes still writes one line and counts one
    match: the second chunk starts at byte 26, inside the second line,
    and the tail [2024-01-05 c] of that line is taken for a line. *)
Theorem absent_date_is_matched :
  ascending (file_lines three_lines) = true
  /\ lines_of_date (lit "2024-01-05") three_lines = []
  /\ extract_logs 26 (lit "2024-01-05") (on_file three_lines None)
     = (on_file three_lines (Some (line "2024-01-05 c")),
        Ok {| window_used := (0, 49);
              lines_written := [line "2024-01-05 c"];
              match_count := 1 |}).
Proof. repeat split. Qed.

(** * Further properties *)

(** ** The searches *)

Lemma bs_step_halves mm key w :
  left w < right w ->
  right (bs_step mm key w) - left (bs_step mm key w) <= (right w - left w) / 2.
Proof.
  intros Hlt.
  destruct (bs_step_cases mm key w) as [E | E]; rewrite E; simpl;
    Z.div_mod_to_equations; lia.
Qed.

Lemma bs_trace_length mm key w :
  len (bs_trace mm key w) <= Z.log2 (right w - left w) + 1.
Proof.
  funelim (bs_trace mm key w).
  - loop_guard.
    pose proof (bs_step_halves mm key w H1) as Hhalf.
    set (w' := bs_step mm key w) in *.
    assert (Hlen : len (w' :: bs_trace mm key w') = 1 + len (bs_trace mm key w'))
      by (unfold len; simpl List.length; lia).
    rewrite Hlen.
    destruct (Z.le_gt_cases (right w' - left w') 0) as [Hz | Hpos].
    + rewrite bs_trace_eq.
      replace (left w' <? right w') with false by (symmetry; apply Z.ltb_ge; lia).
      pose proof (Z.log2_nonneg (right w - left w)). unfold len; simpl; lia.
    + assert (Hmono : Z.log2 (right w' - left w')
                      <= Z.log2 ((right w - left w) / 2))
        by (apply Z.log2_le_mono; lia).
      assert (Hdiv : Z.log2 ((right w - left w) / 2)
                     = Z.log2 (right w - left w) - 1).
      { rewrite <- Z.div2_div, Z.div2_spec, Z.log2_shiftr by lia.
        assert (1 <= Z.log2 (right w - left w)).
        { apply Z.log2_le_pow2; [lia|]. change (2 ^ 1) with 2.
          Z.div_mod_to_equations; lia. }
        lia. }
      lia.
  - pose proof (Z.log2_nonneg (right w - left w)). unfold len; simpl; lia.
Qed.

(** X3. Either search probes the file at most [log2 fileSize + 1]
    times, whatever the file holds and whatever the margin. *)
Theorem searches_are_logarithmic (file : bytes) chunk_size target_date key2 :
  let mm := mapped file in
  let w1 := first_window (len file) in
  let w2 := second_window (len file)
              (start_of chunk_size (first_search mm (len file) target_date)) in
  len (bs_trace mm target_date w1) <= Z.log2 (len file) + 1
  /\ len (bs_trace mm key2 w2) <= Z.log2 (len file) + 1.
Proof.
  intros mm w1 w2. split.
  - pose proof (bs_trace_length mm target_date w1) as H.
    unfold w1, first_window in H; simpl in H.
    now rewrite Z.sub_0_r in H.
  - pose proof (bs_trace_length mm key2 w2) as H.
    assert (Hle : Z.log2 (right w2 - left w2) <= Z.log2 (len file)).
    { apply Z.log2_le_mono. unfold w2, second_window, start_of; simpl. lia. }
    lia.
Qed.

(** The bounds only move inwards. *)
Lemma bs_loop_inwards mm key w :
  left w <= left (bs_loop mm key w) /\ right (bs_loop mm key w) <= right w.
Proof.
  funelim (bs_loop mm key w).
  - loop_guard.
    assert (Hmid : left w <= (left w + right w) / 2 < right w)
      by (Z.div_mod_to_equations; lia).
    destruct (bs_step_cases mm key w) as [E | E]; rewrite E in *; simpl in *; lia.
  - lia.
Qed.

(** X4. With a margin that is not negative, the window returned lies
    inside the file and is not reversed:
    [0 <= start_pos <= end_pos <= fileSize]. *)
Theorem window_within_file (file : bytes) chunk_size target_date start_pos end_pos :
  0 <= chunk_size ->
  _binary_search_date_position file chunk_size target_date
  = Ok (start_pos, end_pos) ->
  0 <= start_pos /\ start_pos <= end_pos /\ end_pos <= len file.
Proof.
  intros Hc. unfold _binary_search_date_position.
  destruct (mm_open file) as [mm|]; [|discriminate].
  destruct (next_date target_date) as [next|]; [|discriminate].
  intros H. injection H as <- <-.
  pose proof (second_window_ok file chunk_size mm target_date Hc) as Hw2.
  pose proof (bs_loop_window_ok mm next _ _ Hw2) as (H0 & Hle & Hs).
  pose proof (bs_loop_inwards mm next
                (second_window (len file)
                   (start_of chunk_size (first_search mm (len file) target_date))))
    as [Hl _].
  unfold second_window in Hl at 1; simpl in Hl.
  unfold end_of, start_of in *. lia.
Qed.

Lemma window_within_file_witness :
  0 <= 0 /\ 0 <= 41 /\ 41 <= len four_lines.
Proof.
  apply (window_within_file four_lines 5 (lit "2024-01-02") 0 41);
    [lia | reflexivity].
Defined.

(** ** How a run can end *)



Lemma search_raises (file : bytes) chunk_size target_date ymd e :
  strptime target_date = Some ymd ->
  _binary_search_date_position file chunk_size target_date = Raise e ->
  e = MmapEmptyFile /\ file = [].
Proof.
  intros Hd. unfold _binary_search_date_position.
  destruct file as [|b file]; simpl.
  - intros H; injection H as <-. now split.
  - destruct (validated_date_has_next _ _ Hd) as [next ->]. discriminate.
Qed.






(** X11. A margin of zero reads nothing: the run of a valid date on a
    log file that is not empty writes an empty output file and counts
    no match, whatever the file holds. *)
Theorem zero_margin_writes_nothing target_date ymd (file : bytes) prior :
  strptime target_date = Some ymd ->
  file <> [] ->
  exists window,
    extract_logs 0 target_date (on_file file prior)
    = (on_file file (Some []),
       Ok {| window_used := window; lines_written := []; match_count := 0 |}).
Proof.
  intros Hd Hne. unfold extract_logs, on_file. cbn [input]. rewrite Hd.
  destruct (_binary_search_date_position file 0 target_date)
    as [[start_pos end_pos]|e0] eqn:Hw.
  2:{ destruct (search_raises _ _ _ _ _ Hd Hw) as [_ ->]. congruence. }
  exists (start_pos, end_pos).
  rewrite scan_loop_eq.
  destruct (start_pos <? end_pos) eqn:Hlt; [|reflexivity].
  apply Z.ltb_lt in Hlt.
  replace (Z.min 0 (end_pos - start_pos)) with 0 by lia.
  reflexivity.
Qed.

Lemma zero_margin_writes_nothing_witness :
  exists window,
    extract_logs 0 (lit "2024-01-02") (on_file four_lines None)
    = (on_file four_lines (Some []),
       Ok {| window_used := window; lines_written := []; match_count := 0 |}).
Proof.
  apply (zero_margin_writes_nothing (lit "2024-01-02") (2024, 1, 2) four_lines None);
    [reflexivity | discriminate].
Defined.

(** ** [main] *)




(** ** A margin that spans the file, and a date of ten characters *)







(** ** The output read back *)

(** A completed run, taken apart. *)
Lemma run_ok_inv chunk_size target_date fs fs' rep :
  extract_logs chunk_size target_date fs = (fs', Ok rep) ->
  exists ymd snk,
    strptime target_date = Some ymd
    /\ _binary_search_date_position (input fs) chunk_size target_date
       = Ok (window_used rep)
    /\ scan_loop (input fs) chunk_size target_date (fst (window_used rep))
         (snd (window_used rep)) (fst (window_used rep)) empty_sink
       = (snk, None)
    /\ output fs' = Some (List.concat (written snk))
    /\ written snk = lines_written rep
    /\ matches_found snk = match_count rep.
Proof.
  unfold extract_logs.
  destruct (strptime target_date) as [ymd|]; [|discriminate].
  destruct (_binary_search_date_position _ _ _) as [[start_pos end_pos]|];
    [|discriminate].
  fold empty_sink.
  destruct (scan_loop _ _ _ _ _ _ _) as [snk [e|]] eqn:Hs; [discriminate|].
  intros H. injection H as <- <-. simpl.
  exists ymd, snk. repeat split; assumption.
Qed.

Lemma no_linebreak_cons c l :
  no_linebreak (c :: l) <-> is_linebreak c = false /\ no_linebreak l.
Proof.
  unfold no_linebreak. simpl. rewrite andb_true_iff, negb_true_iff. tauto.
Qed.

Lemma no_linebreak_rev l : no_linebreak l -> no_linebreak (rev l).
Proof.
  unfold no_linebreak. rewrite !forallb_forall. intros H c Hin.
  apply H. now apply in_rev.
Qed.

(** The lines [splitlines] returns hold no line boundary. *)
Lemma splitlines_from_no_linebreak n : forall s cur,
  (List.length s <= n)%nat ->
  no_linebreak cur ->
  Forall no_linebreak (splitlines_from cur s).
Proof.
  induction n as [|n IH]; intros s cur Hlen Hcur.
  - destruct s; [|simpl in Hlen; lia]. simpl.
    destruct cur; [constructor|].
    constructor; [now apply no_linebreak_rev | constructor].
  - destruct s as [|c r]; simpl.
    + destruct cur; [constructor|].
      constructor; [now apply no_linebreak_rev | constructor].
    + simpl in Hlen.
      destruct (is_linebreak c) eqn:Hc.
      * constructor; [now apply no_linebreak_rev|].
        destruct r as [|c' r']; [apply IH; [simpl; lia | reflexivity]|].
        destruct ((c =? CR)%N && (c' =? LF)%N);
          apply IH; simpl in *; try lia; reflexivity.
      * apply IH; [lia|]. apply no_linebreak_cons. now split.
Qed.

Lemma splitlines_no_linebreak s : Forall no_linebreak (splitlines s).
Proof.
  apply (splitlines_from_no_linebreak (List.length s)); [lia | reflexivity].
Qed.

(** A line without boundary and its newline are split off as they
    are. *)
Lemma splitlines_from_line l : forall cur rest,
  no_linebreak l ->
  splitlines_from cur (l ++ LF :: rest)
  = (rev cur ++ l) :: splitlines_from [] rest.
Proof.
  induction l as [|c l IH]; intros cur rest Hl.
  - simpl. rewrite app_nil_r. destruct rest; reflexivity.
  - apply no_linebreak_cons in Hl as [Hc Hl].
    simpl. rewrite Hc, (IH _ _ Hl). simpl. now rewrite <- app_assoc.
Qed.

Lemma splitlines_of_lines ls :
  Forall no_linebreak ls ->
  splitlines (List.concat (map (fun l => l ++ [LF]) ls)) = ls.
Proof.
  unfold splitlines. induction 1 as [|l ls Hl _ IH]; [reflexivity|].
  simpl. rewrite <- app_assoc. simpl.
  now rewrite (splitlines_from_line l [] _ Hl), IH.
Qed.

Lemma filter_Forall {A} (P : A -> Prop) f (l : list A) :
  Forall P l -> Forall P (filter f l).
Proof.
  induction 1 as [|a l Ha _ IH]; simpl; [constructor|].
  destruct (f a); [now constructor | assumption].
Qed.

Lemma scan_chunk_of_lines target_date start_pos chunk snk :
  sink_of_lines snk -> sink_of_lines (scan_chunk target_date start_pos chunk snk).
Proof.
  intros (ls & Hw & Hls). unfold scan_chunk. rewrite fold_emit_filter. simpl.
  match goal with |- context [filter _ ?L] => set (lines := L) end.
  exists (ls ++ filter (fun l => startswith l target_date) lines). split.
  - now rewrite Hw, map_app.
  - apply Forall_app. split; [assumption|]. apply filter_Forall.
    pose proof (splitlines_no_linebreak (utf8_decode_ignore chunk)) as Hall.
    unfold lines. destruct (_ && _); [|assumption].
    destruct (splitlines _); [constructor|]. now inversion Hall.
Qed.

Lemma scan_loop_of_lines file chunk_size target_date start_pos end_pos tell snk :
  sink_of_lines snk ->
  sink_of_lines
    (fst (scan_loop file chunk_size target_date start_pos end_pos tell snk)).
Proof.
  funelim (scan_loop file chunk_size target_date start_pos end_pos tell snk);
    intros Hs; try assumption.
  match goal with IH : _ -> sink_of_lines _ |- _ => apply IH end.
  now apply scan_chunk_of_lines.
Qed.

(** X7. The output file of a completed run, read back and split into
    lines, gives exactly the lines the run wrote, one line of the
    output for each: there are [match_count] of them and each begins
    with the target date. *)
Theorem output_reads_back chunk_size target_date fs fs' rep :
  extract_logs chunk_size target_date fs = (fs', Ok rep) ->
  exists text,
    output fs' = Some text
    /\ map (fun l => l ++ [LF]) (splitlines text) = lines_written rep
    /\ len (splitlines text) = match_count rep
    /\ Forall (begins_with target_date) (splitlines text).
Proof.
  intros Hrun.
  destruct (run_ok_inv _ _ _ _ _ Hrun) as (ymd & snk & _ & _ & Hscan & Hout & Hw' & Hc').
  pose proof (scan_loop_sound (input fs) chunk_size target_date
                (fst (window_used rep)) (snd (window_used rep))
                (fst (window_used rep)) empty_sink
                (empty_sink_sound target_date)) as [Hall Hcount].
  pose proof (scan_loop_of_lines (input fs) chunk_size target_date
                (fst (window_used rep)) (snd (window_used rep))
                (fst (window_used rep)) empty_sink) as Hls.
  rewrite Hscan in Hall, Hcount, Hls. simpl in Hall, Hcount, Hls.
  rewrite Hw' in Hall, Hcount, Hout. rewrite Hc' in Hcount.
  destruct Hls as (ls & Hw & Hnl); [exists []; split; [reflexivity | constructor]|].
  rewrite Hw' in Hw.
  exists (List.concat (lines_written rep)). split; [assumption|].
  rewrite Hw, (splitlines_of_lines ls Hnl). repeat split.
  - rewrite Hcount, Hw. unfold len. now rewrite length_map.
  - rewrite Hw in Hall. clear - Hall.
    induction ls as [|l ls IH]; [constructor|].
    inversion Hall as [|? ? (l' & Heq & Hb) Hrest]; subst.
    apply app_inj_tail in Heq as [-> _].
    constructor; [assumption | now apply IH].
Qed.

Lemma output_reads_back_witness :
  exists text,
    Some (line "2024-01-02 c") = Some text
    /\ map (fun l => l ++ [LF]) (splitlines text) = [line "2024-01-02 c"]
    /\ len (splitlines text) = 1
    /\ Forall (begins_with (lit "2024-01-02")) (splitlines text).
Proof.
  exact (output_reads_back 20 (lit "2024-01-02") (on_file four_lines None)
           (on_file four_lines (Some (line "2024-01-02 c")))
           {| window_used := (0, 52);
              lines_written := [line "2024-01-02 c"];
              match_count := 1 |}
           eq_refl).
Defined.

(** ** The scan, chunk by chunk *)

Lemma chunked_nil n : chunked n [] = [].
Proof. destruct n; now simp chunked. Qed.

Lemma chunked_cons n (b : byte) s :
  (0 < n)%nat ->
  chunked n (b :: s) = firstn n (b :: s) :: chunked n (skipn n (b :: s)).
Proof. destruct n; [lia|]. intros _. now simp chunked. Qed.

(** What is left of a window after its first chunk. *)
Lemma window_rest (D : bytes) (c m : nat) :
  let k := List.length (firstn (Nat.min c m) D) in
  skipn c (firstn m D) = firstn (m - k) (skipn k D).
Proof.
  cbv zeta. rewrite length_firstn.
  destruct (Nat.le_gt_cases c (Nat.min m (List.length D))) as [Hfull | Hshort].
  - replace (Nat.min (Nat.min c m) (List.length D)) with c by lia.
    apply skipn_firstn_comm.
  - rewrite (skipn_all2 (firstn m D)) by (rewrite length_firstn; lia).
    destruct (Nat.le_gt_cases m (List.length D)) as [Hm | Hm].
    + replace (Nat.min (Nat.min c m) (List.length D)) with m by lia.
      now rewrite Nat.sub_diag.
    + replace (Nat.min (Nat.min c m) (List.length D)) with (List.length D) by lia.
      now rewrite skipn_all, firstn_nil.
Qed.

Lemma scan_loop_chunks file chunk_size target_date start_pos end_pos :
  0 <= chunk_size ->
  forall n tell snk,
    (Z.to_nat (end_pos - tell) <= n)%nat ->
    0 <= tell ->
    scan_loop file chunk_size target_date start_pos end_pos tell snk
    = (fold_left (fun k chunk => scan_chunk target_date start_pos chunk k)
         (chunked (Z.to_nat chunk_size) (window_bytes file tell end_pos)) snk,
       None).
Proof.
  intros Hc. induction n as [|n IH]; intros tell snk Hn Htell;
    rewrite scan_loop_eq; unfold window_bytes.
  - replace (tell <? end_pos) with false by (symmetry; apply Z.ltb_ge; lia).
    unfold take. replace (Z.to_nat (end_pos - tell)) with 0%nat by lia.
    simpl. now rewrite chunked_nil.
  - destruct (tell <? end_pos) eqn:Hlt.
    2:{ apply Z.ltb_ge in Hlt. unfold take.
        replace (Z.to_nat (end_pos - tell)) with 0%nat by lia.
        simpl. now rewrite chunked_nil. }
    apply Z.ltb_lt in Hlt.
    unfold file_read.
    replace (Z.min chunk_size (end_pos - tell) <? -1) with false
      by (symmetry; apply Z.ltb_ge; lia).
    replace (Z.min chunk_size (end_pos - tell) =? -1) with false
      by (symmetry; apply Z.eqb_neq; lia).
    unfold take, drop.
    set (D := skipn (Z.to_nat tell) file).
    set (m := Z.to_nat (end_pos - tell)).
    set (c := Z.to_nat chunk_size).
    replace (Z.to_nat (Z.min chunk_size (end_pos - tell))) with (Nat.min c m)
      by (unfold c, m; lia).
    destruct (firstn (Nat.min c m) D) as [|b chunk] eqn:Hchunk.
    + (* nothing read: the margin is zero or the file has ended *)
      assert (Hcases : c = 0%nat \/ D = []).
      { destruct c; [now left|]. right.
        destruct D; [reflexivity|].
        replace (Nat.min (S c) m) with (S (Nat.pred (Nat.min (S c) m))) in Hchunk
          by (unfold m; lia).
        discriminate. }
      destruct Hcases as [-> | ->].
      * now simp chunked.
      * now rewrite firstn_nil, chunked_nil.
    + assert (Hcpos : (0 < c)%nat) by (destruct c; [discriminate | lia]).
      assert (HW : firstn m D = b :: skipn 1 (firstn m D)
                   /\ firstn c (firstn m D) = b :: chunk).
      { rewrite firstn_firstn, Hchunk. split; [|reflexivity].
        destruct D as [|b' D']; [now rewrite firstn_nil in Hchunk|].
        assert (Hm : (0 < m)%nat) by (unfold m; lia).
        destruct m; [lia|]. destruct c; [lia|].
        simpl in Hchunk. injection Hchunk as -> _. reflexivity. }
      destruct HW as [HW1 HW2].
      rewrite HW1, chunked_cons by assumption. rewrite <- HW1, HW2.
      cbn [fold_left].
      rewrite IH.
      * unfold window_bytes, take, drop.
        pose proof (window_rest D c m) as Hrest. cbv zeta in Hrest.
        rewrite Hchunk in Hrest. rewrite Hrest.
        unfold D. rewrite skipn_skipn.
        do 4 f_equal.
        -- subst m. unfold len. generalize (List.length (b :: chunk)).
           clear. intros. lia.
        -- unfold len. generalize (List.length (b :: chunk)).
           clear - Htell. intros. f_equal. lia.
      * assert (0 < len (b :: chunk)) by (unfold len; cbn [List.length]; lia).
        subst m. lia.
      * unfold len. lia.
Qed.

(** X6. With a margin that is not negative the scan never raises, and
    what it writes is what the chunks of the window give one after
    the other, each decoded, split into lines and filtered on its own:
    the window is cut every [chunk_size] bytes, wherever its lines
    end. *)
Theorem scan_by_chunks file chunk_size target_date start_pos end_pos snk :
  0 <= chunk_size ->
  0 <= start_pos ->
  scan_loop file chunk_size target_date start_pos end_pos start_pos snk
  = (fold_left (fun k chunk => scan_chunk target_date start_pos chunk k)
       (chunked (Z.to_nat chunk_size) (window_bytes file start_pos end_pos)) snk,
     None).
Proof.
  intros Hc Hs.
  now apply (scan_loop_chunks file chunk_size target_date start_pos end_pos Hc
               (Z.to_nat (end_pos - start_pos))).
Qed.

Lemma scan_by_chunks_witness :
  scan_loop four_lines 20 (lit "2024-01-02") 0 52 0 empty_sink
  = (fold_left (fun k chunk => scan_chunk (lit "2024-01-02") 0 chunk k)
       [blit "2024-01-01 a" ++ x0a :: blit "2024-01";
        blit "-02 b" ++ x0a :: blit "2024-01-02 c" ++ x0a :: blit "2";
        blit "024-01-03 d" ++ [x0a]]
       empty_sink,
     None).
Proof.
  apply (scan_by_chunks four_lines 20 (lit "2024-01-02") 0 52 empty_sink); lia.
Defined.

(** ** The order of keys *)

Lemma str_ltb_nil_r a : str_ltb a [] = false.
Proof. destruct a; reflexivity. Qed.

Lemma str_ltb_irrefl a : str_ltb a a = false.
Proof.
  induction a as [|x a IH]; [reflexivity|].
  simpl. now rewrite N.ltb_irrefl.
Qed.

(** [a <= b < t] gives [a < t]. *)
Lemma str_le_lt_trans a : forall b t,
  key_le a b -> str_ltb b t = true -> str_ltb a t = true.
Proof.
  unfold key_le.
  induction a as [|x a IH]; intros b t Hab Hbt.
  - destruct t; [now rewrite str_ltb_nil_r in Hbt | reflexivity].
  - destruct b as [|z b]; [discriminate|].
    destruct t as [|y t]; [discriminate|].
    simpl in *.
    destruct (z <? x)%N eqn:Hzx; [discriminate|].
    destruct (x <? z)%N eqn:Hxz.
    + destruct (z <? y)%N eqn:Hzy.
      * replace (x <? y)%N with true; [reflexivity|].
        symmetry. apply N.ltb_lt. apply N.ltb_lt in Hxz, Hzy. lia.
      * destruct (y <? z)%N eqn:Hyz; [discriminate|].
        replace (x <? y)%N with true; [reflexivity|].
        symmetry. apply N.ltb_lt. apply N.ltb_lt in Hxz.
        apply N.ltb_ge in Hzy, Hyz. lia.
    + assert (x = z) by (apply N.ltb_ge in Hzx, Hxz; lia). subst z.
      destruct (x <? y)%N; [reflexivity|].
      destruct (y <? x)%N; [discriminate|].
      now apply (IH b).
Qed.


(** ** What a search finds *)

Lemma bs_step_probes mm key w :
  bs_step mm key w
  = let mid := (left w + right w) / 2 in
    if probes_before mm key mid
    then {| left := mid + 1; right := right w |}
    else {| left := left w; right := mid |}.
Proof.
  unfold bs_step, probes_before. cbv zeta.
  destruct (probe mm _); reflexivity.
Qed.

(** The loop keeps: every offset of the starting window below [left]
    passes the test, and none from [right] on does, provided the test
    never passes after it has failed. *)
Lemma bs_loop_partition_aux mm key lo hi :
  (forall a b, lo <= a <= b -> b < hi ->
     probes_before mm key b = true -> probes_before mm key a = true) ->
  forall n w,
    (Z.to_nat (right w - left w) <= n)%nat ->
    lo <= left w -> left w <= right w -> right w <= hi ->
    (forall m, lo <= m < left w -> probes_before mm key m = true) ->
    (forall m, right w <= m < hi -> probes_before mm key m = false) ->
    (forall m, lo <= m < left (bs_loop mm key w) -> probes_before mm key m = true)
    /\ (forall m, right (bs_loop mm key w) <= m < hi ->
          probes_before mm key m = false).
Proof.
  intros Hmono. induction n as [|n IH]; intros w Hn Hlo Hle Hhi Hbelow Habove;
    rewrite bs_loop_eq.
  - replace (left w <? right w) with false by (symmetry; apply Z.ltb_ge; lia).
    now split.
  - destruct (left w <? right w) eqn:Hlt; [|now split].
    apply Z.ltb_lt in Hlt.
    assert (Hmid : left w <= (left w + right w) / 2 < right w)
      by (Z.div_mod_to_equations; lia).
    set (mid := (left w + right w) / 2) in *.
    rewrite bs_step_probes. cbv zeta. fold mid.
    destruct (probes_before mm key mid) eqn:Hp.
    + apply IH; simpl; try lia; [|assumption].
      intros m Hm. apply (Hmono m mid); try lia. assumption.
    + apply IH; simpl; try lia; [assumption|].
      intros m Hm.
      destruct (probes_before mm key m) eqn:Hpm; [|reflexivity].
      rewrite (Hmono mid m) in Hp; [discriminate | lia | lia | assumption].
Qed.

(** X2. A search is a binary search for the point where its test turns
    from true to false: when the test "the line probed at this offset
    has a key below the key searched" never holds at an offset after
    one where it fails, the search ends with [left = right] at the
    offset that separates the two, inside the window it started
    from. *)
Theorem bs_loop_finds_partition mm key w :
  left w <= right w ->
  (forall a b, left w <= a <= b -> b < right w ->
     probes_before mm key b = true -> probes_before mm key a = true) ->
  let x := left (bs_loop mm key w) in
  right (bs_loop mm key w) = x
  /\ left w <= x <= right w
  /\ (forall m, left w <= m < x -> probes_before mm key m = true)
  /\ (forall m, x <= m < right w -> probes_before mm key m = false).
Proof.
  intros Hle Hmono x.
  pose proof (bs_loop_exits mm key w) as Hexit.
  pose proof (bs_loop_inwards mm key w) as [Hl Hr].
  destruct (bs_loop_partition_aux mm key (left w) (right w) Hmono
              (Z.to_nat (right w - left w)) w) as [Hbelow Habove];
    try lia.
  assert (Hclosed : right (bs_loop mm key w) = x).
  { unfold x.
    assert (left (bs_loop mm key w) <= right (bs_loop mm key w)); [|lia].
    clear - Hle. revert Hle.
    funelim (bs_loop mm key w); intros Hle.
    - loop_guard.
      assert (Hmid : left w <= (left w + right w) / 2 < right w)
        by (Z.div_mod_to_equations; lia).
      match goal with IH : _ -> _ <= _ |- _ => apply IH end.
      destruct (bs_step_cases mm key w) as [E | E]; rewrite E; simpl; lia.
    - assumption. }
  rewrite Hclosed in *.
  repeat split; try lia; assumption.
Qed.

(** ** Probing a file of records *)

Lemma no_newline_cons b l :
  no_newline (b :: l) <-> byte_eqb b x0a = false /\ no_newline l.
Proof.
  unfold no_newline. simpl. rewrite andb_true_iff, negb_true_iff. tauto.
Qed.

Lemma no_newline_skipn l : forall n, no_newline l -> no_newline (skipn n l).
Proof.
  induction l as [|b l IH]; intros [|n] H; simpl; try assumption.
  apply IH. now apply no_newline_cons in H.
Qed.

Lemma line_span_app s : fst (line_span s) ++ snd (line_span s) = s.
Proof.
  induction s as [|b s IH]; [reflexivity|].
  simpl. destruct (byte_eqb b x0a); [reflexivity|].
  destruct (line_span s) as [l r]. simpl in *. now rewrite IH.
Qed.

(** A record and its newline are read as one line. *)
Lemma line_span_line l : forall rest,
  no_newline l -> line_span (l ++ x0a :: rest) = (l ++ [x0a], rest).
Proof.
  induction l as [|b l IH]; intros rest Hl; [reflexivity|].
  apply no_newline_cons in Hl as [Hb Hl].
  simpl. rewrite Hb, (IH _ Hl). reflexivity.
Qed.

Lemma probe_second_line mm mid :
  probe mm mid
  = utf8_decode_ignore
      (second_line (skipn (Z.to_nat (Z.max 0 (mid - 10))) (mm_data mm))).
Proof.
  unfold probe, mm_readline, mm_seek, second_line, drop.
  cbn [mm_pos mm_data fst snd].
  set (p := Z.max 0 (mid - 10)).
  set (s := skipn (Z.to_nat p) (mm_data mm)).
  replace (skipn (Z.to_nat (p + len (fst (line_span s)))) (mm_data mm))
    with (snd (line_span s)); [reflexivity|].
  replace (Z.to_nat (p + len (fst (line_span s))))
    with (List.length (fst (line_span s)) + Z.to_nat p)%nat
    by (unfold len, p; lia).
  rewrite <- skipn_skipn. fold s.
  transitivity (skipn (List.length (fst (line_span s)))
                  (fst (line_span s) ++ snd (line_span s))).
  - now rewrite skipn_length_app.
  - now rewrite line_span_app.
Qed.

Lemma first_line_of_lines ls :
  Forall no_newline ls ->
  fst (line_span (bytes_of_lines ls))
  = match hd_error ls with Some l => l ++ [x0a] | None => [] end.
Proof.
  intros Hls. destruct ls as [|l r]; [reflexivity|].
  inversion Hls; subst.
  unfold bytes_of_lines. simpl. rewrite <- app_assoc. simpl.
  now rewrite line_span_line.
Qed.

(** The line probed at offset [p] of a file of records is the record
    after the one that holds [p]. *)
Lemma second_line_at ls : forall p,
  Forall no_newline ls ->
  second_line (skipn p (bytes_of_lines ls))
  = match next_line_after ls p with Some l => l ++ [x0a] | None => [] end.
Proof.
  induction ls as [|l r IH]; intros p Hls.
  - simpl. now rewrite skipn_nil.
  - inversion Hls as [|? ? Hl Hr]; subst.
    simpl next_line_after.
    change (bytes_of_lines (l :: r)) with ((l ++ [x0a]) ++ bytes_of_lines r).
    destruct (p <=? List.length l)%nat eqn:Hp.
    + apply Nat.leb_le in Hp.
      rewrite <- app_assoc. simpl app.
      rewrite skipn_app.
      replace (p - List.length l)%nat with 0%nat by lia. simpl skipn.
      unfold second_line.
      rewrite line_span_line by now apply no_newline_skipn.
      simpl snd. now apply first_line_of_lines.
    + apply Nat.leb_gt in Hp.
      rewrite skipn_app.
      rewrite (skipn_all2 (l ++ [x0a])) by (rewrite length_app; simpl; lia).
      rewrite length_app. simpl.
      replace (p - (List.length l + 1))%nat with (p - List.length l - 1)%nat by lia.
      now apply IH.
Qed.

Lemma LF_not_continuation : is_continuation (Byte.to_N x0a) = false.
Proof. reflexivity. Qed.

Lemma decode_LF : utf8_decode_ignore [x0a] = [LF].
Proof. reflexivity. Qed.

(** The newline that ends a record survives the decoding, whatever
    bytes come before it: the decoded line is never empty. *)
Lemma decode_line_nonempty l : utf8_decode_ignore (l ++ [x0a]) <> [].
Proof.
  remember (List.length l) as n eqn:Hn. revert l Hn.
  induction n as [n IHn] using lt_wf_ind. intros l Hn.
  assert (IH : forall r, (List.length r < n)%nat ->
                         utf8_decode_ignore (r ++ [x0a]) <> [])
    by (intros r Hr; now apply (IHn (List.length r))).
  clear IHn.
  destruct l as [|b1 r1]; [discriminate|].
  simpl in Hn.
  cbn [app utf8_decode_ignore].
  destruct (Byte.to_N b1 <? 128)%N; [discriminate|].
  destruct (Byte.to_N b1 <? 194)%N; [apply IH; lia|].
  destruct (Byte.to_N b1 <? 224)%N.
  { destruct r1 as [|b2 r2]; cbn [app].
    - rewrite LF_not_continuation, decode_LF. discriminate.
    - destruct (is_continuation (Byte.to_N b2)); [discriminate|].
      apply (IH (b2 :: r2)). simpl in *; lia. }
  destruct (Byte.to_N b1 <? 240)%N.
  { destruct r1 as [|b2 r2]; cbn [app].
    - rewrite LF_not_continuation. cbn [negb orb]. rewrite decode_LF. discriminate.
    - destruct (negb (is_continuation (Byte.to_N b2)) || _);
        [apply (IH (b2 :: r2)); simpl in *; lia|].
      destruct r2 as [|b3 r3]; cbn [app].
      + rewrite LF_not_continuation, decode_LF. discriminate.
      + destruct (is_continuation (Byte.to_N b3)); [discriminate|].
        apply (IH (b3 :: r3)). simpl in *; lia. }
  destruct (Byte.to_N b1 <? 245)%N; [|apply IH; lia].
  destruct r1 as [|b2 r2]; cbn [app].
  - rewrite LF_not_continuation. cbn [negb orb]. rewrite decode_LF. discriminate.
  - destruct (negb (is_continuation (Byte.to_N b2)) || _);
      [apply (IH (b2 :: r2)); simpl in *; lia|].
    destruct r2 as [|b3 r3]; cbn [app].
    + rewrite LF_not_continuation. cbn [negb]. rewrite decode_LF. discriminate.
    + destruct (negb (is_continuation (Byte.to_N b3)));
        [apply (IH (b3 :: r3)); simpl in *; lia|].
      destruct r3 as [|b4 r4]; cbn [app].
      * rewrite LF_not_continuation, decode_LF. discriminate.
      * destruct (is_continuation (Byte.to_N b4)); [discriminate|].
        apply (IH (b4 :: r4)). simpl in *; lia.
Qed.

(** On a file of records the test of a search reads the key of the
    record after the one that holds the byte ten before [mid]. *)
Lemma probes_before_lines ls key mid :
  Forall no_newline ls ->
  probes_before (mapped (bytes_of_lines ls)) key mid
  = match next_line_after ls (Z.to_nat (Z.max 0 (mid - 10))) with
    | Some l => str_ltb (line_key l) key
    | None => false
    end.
Proof.
  intros Hls. unfold probes_before.
  rewrite probe_second_line. cbn [mapped mm_data].
  rewrite (second_line_at ls _ Hls).
  destruct (next_line_after ls _) as [l|]; [|reflexivity].
  unfold line_key. pose proof (decode_line_nonempty l) as Hne.
  destruct (utf8_decode_ignore (l ++ [x0a])); [congruence | reflexivity].
Qed.

(** ** Sorted files *)

Lemma next_line_in_tail ls : forall p x,
  next_line_after ls p = Some x -> In x (tl ls).
Proof.
  induction ls as [|l r IH]; intros p x; simpl; [discriminate|].
  destruct (p <=? List.length l)%nat.
  - destruct r; simpl; [discriminate|]. intros H; injection H as ->. now left.
  - intros H. apply IH in H. destruct r; [contradiction | now right].
Qed.


(** Probing further on gives the same record or a later one. *)
Lemma next_line_mono ls :
  sorted_by_key ls ->
  forall a b lb,
    (a <= b)%nat ->
    next_line_after ls b = Some lb ->
    exists la, next_line_after ls a = Some la
               /\ key_le (line_key la) (line_key lb).
Proof.
  unfold sorted_by_key.
  induction ls as [|l r IH]; intros Hs a b lb Hab; simpl; [discriminate|].
  apply StronglySorted_inv in Hs as [Hs _].
  destruct (b <=? List.length l)%nat eqn:Hb.
  - apply Nat.leb_le in Hb.
    replace (a <=? List.length l)%nat with true by (symmetry; apply Nat.leb_le; lia).
    intros H. exists lb. split; [assumption|]. apply str_ltb_irrefl.
  - apply Nat.leb_gt in Hb. intros Hnext.
    destruct (a <=? List.length l)%nat eqn:Ha.
    + pose proof (next_line_in_tail _ _ _ Hnext) as Hin.
      destruct r as [|la r']; [contradiction|]. simpl in Hin.
      exists la. split; [reflexivity|].
      apply StronglySorted_inv in Hs as [_ Hall].
      rewrite Forall_forall in Hall. now apply Hall.
    + apply Nat.leb_gt in Ha.
      apply (IH Hs (a - List.length l - 1)%nat (b - List.length l - 1)%nat);
        [lia | assumption].
Qed.



(** On a sorted file of records the test of a search never holds
    after it has failed. *)
Lemma probe_monotone ls key :
  Forall no_newline ls ->
  sorted_by_key ls ->
  forall a b,
    a <= b ->
    probes_before (mapped (bytes_of_lines ls)) key b = true ->
    probes_before (mapped (bytes_of_lines ls)) key a = true.
Proof.
  intros Hnl Hs a b Hab. rewrite !(probes_before_lines ls key _ Hnl).
  destruct (next_line_after ls (Z.to_nat (Z.max 0 (b - 10)))) as [lb|] eqn:Hb;
    [|discriminate].
  intros Hlt.
  destruct (next_line_mono ls Hs (Z.to_nat (Z.max 0 (a - 10)))
              (Z.to_nat (Z.max 0 (b - 10))) lb ltac:(lia) Hb) as (la & -> & Hle).
  now apply (str_le_lt_trans _ (line_key lb)).
Qed.

(** ** The key of the second search *)









(** A date written with a day of one digit parses too, and its lines
    sort after the key of the second search. *)
Example next_date_of_short_day :
  strptime (lit "2024-01-5") = Some (2024, 1, 5)
  /\ next_date (lit "2024-01-5") = Ok (lit "2024-01--4")
  /\ str_ltb (take 10 (lit "2024-01-5 x")) (lit "2024-01--4") = false.
Proof. repeat split. Qed.

(** ** The window on a sorted file *)






(** The four lines of the scenario as records. *)
Lemma four_lines_records :
  Forall no_newline
    (map blit ["2024-01-01 a"; "2024-01-02 b"; "2024-01-02 c"; "2024-01-03 d"]%string)
  /\ sorted_by_key
       (map blit ["2024-01-01 a"; "2024-01-02 b"; "2024-01-02 c"; "2024-01-03 d"]%string).
Proof. split; repeat constructor. Qed.


Lemma bs_loop_finds_partition_witness :
  right (bs_loop (mapped four_lines) (lit "2024-01-03") (first_window 52)) = 36
  /\ 0 <= 36 <= 52
  /\ (forall m, 0 <= m < 36 ->
        probes_before (mapped four_lines) (lit "2024-01-03") m = true)
  /\ (forall m, 36 <= m < 52 ->
        probes_before (mapped four_lines) (lit "2024-01-03") m = false).
Proof.
  destruct four_lines_records as [Hnl Hs].
  apply (bs_loop_finds_partition (mapped four_lines) (lit "2024-01-03")
           (first_window 52)).
  - simpl. lia.
  - intros a b Hab _.
    exact (probe_monotone _ (lit "2024-01-03") Hnl Hs a b (proj2 Hab)).
Defined.
